(** * Interactive Capital City Agent: a shallow embedding of [main.py]

    Python strings are modelled as [string] whose characters are read as
    Latin-1 code points (U+0000 .. U+00FF); [str.lower], [str.strip] and
    [in] are written out for that range.  Console output, the calls to the
    hosted model and the tool invocations are recorded in a trace of
    events; the hosted model itself is an oracle that answers a prompt
    with a text or raises a Python exception. *)

From Stdlib Require Import String Ascii List Bool Arith Lia.
Import ListNotations.
Open Scope string_scope.

(** ** Python string primitives on Latin-1 code points *)

(** [str.lower] on one code point: A-Z and the Latin-1 upper-case letters
    U+00C0 .. U+00DE (except U+00D7, the multiplication sign). *)
Definition py_lower_char (c : ascii) : ascii :=
  let n := nat_of_ascii c in
  (if ((65 <=? n) && (n <=? 90))
     || ((192 <=? n) && (n <=? 222) && negb (n =? 215))
  then ascii_of_nat (n + 32) else c)%nat.

Fixpoint py_lower (s : string) : string :=
  match s with
  | EmptyString => EmptyString
  | String c s' => String (py_lower_char c) (py_lower s')
  end.

(** [str.isspace] on one code point: \t \n \v \f \r, U+001C .. U+001F,
    the space, U+0085 and U+00A0. *)
Definition py_isspace (c : ascii) : bool :=
  let n := nat_of_ascii c in
  (((9 <=? n) && (n <=? 13)) || ((28 <=? n) && (n <=? 32))
   || (n =? 133) || (n =? 160))%nat.

Fixpoint lstrip (s : string) : string :=
  match s with
  | EmptyString => EmptyString
  | String c s' => if py_isspace c then lstrip s' else s
  end.

Fixpoint rev_string (s : string) : string :=
  match s with
  | EmptyString => EmptyString
  | String c s' => rev_string s' ++ String c EmptyString
  end.

(** [str.strip()] with no argument. *)
Definition py_strip (s : string) : string :=
  rev_string (lstrip (rev_string (lstrip s))).

(** [k in s] for two strings: true when [k] occurs at some position of
    [s] (the empty string occurs everywhere). *)
Fixpoint py_contains (k s : string) : bool :=
  prefix k s ||
  match s with
  | EmptyString => false
  | String _ s' => py_contains k s'
  end.

(** The membership [x in [a, b, ...]] on a list of strings. *)
Definition py_in_list (x : string) (l : list string) : bool :=
  existsb (String.eqb x) l.

(** [dict.get(k, default)] on a dict built from a literal: the last
    binding of a key in the literal is the one the dict keeps. *)
Definition py_dict_get (lit : list (string * string)) (k d : string) : string :=
  match find (fun kv => String.eqb (fst kv) k) (rev lit) with
  | Some (_, v) => v
  | None => d
  end.

(** ** Traces, exceptions and the effect monad *)

(** Python exceptions that can reach the interactive loop: [KeyboardInterrupt]
    (a [BaseException] that is not an [Exception]), any [Exception] with its
    [str()] text, and other [BaseException]s that are not [Exception]s
    (such as [SystemExit]). *)
Inductive py_exc :=
| KeyboardInterrupt
| PyException (msg : string)
| PyBaseException (name msg : string).

(** Observable events: a [print] line, the prompt written by [input],
    a request to the hosted model with its prompt, and the invocation
    of the tool [get_capital_city] with its argument. *)
Inductive event :=
| EPrint (line : string)
| EPrompt (text : string)
| EModel (prompt : string)
| ETool (country : string).

(** A computation yields its events and either raises or returns. *)
Definition M (A : Type) : Type := (list event * (py_exc + A))%type.

Definition ret {A} (a : A) : M A := ([], inr a).

Definition raise {A} (e : py_exc) : M A := ([], inl e).

Definition bind {A B} (m : M A) (k : A -> M B) : M B :=
  match m with
  | (t, inl e) => (t, inl e)
  | (t, inr a) => let (t', r) := k a in (app t t', r)
  end.

Notation "x <- m ;; k" := (bind m (fun x => k))
  (at level 61, m at next level, right associativity).
Notation "m ;; k" := (bind m (fun _ => k))
  (at level 61, right associativity).

Definition print (s : string) : M unit := ([EPrint s], inr tt).

Definition trace {A} (m : M A) : list event := fst m.
Definition outcome {A} (m : M A) : py_exc + A := snd m.

(** ** The tool [get_capital_city] *)

Definition capitals : list (string * string) :=
  [ ("france", "Paris");
    ("japan", "Tokyo");
    ("usa", "Washington D.C.");
    ("united states", "Washington D.C.");
    ("germany", "Berlin");
    ("italy", "Rome");
    ("spain", "Madrid");
    ("uk", "London");
    ("united kingdom", "London");
    ("canada", "Ottawa");
    ("australia", "Canberra") ].

Definition get_capital_city (country : string) : M string :=
  ([ETool country], inr tt) ;;
  print ("[TOOL] CALLED: get_capital_city('" ++ country ++ "')") ;;
  let result := py_dict_get capitals (py_lower country) "Unknown" in
  print ("[TOOL] RESULT: '" ++ result ++ "'") ;;
  ret result.

(** ** Country extraction (the loop over [countries]) *)

Definition countries : list string :=
  [ "japan"; "france"; "germany"; "italy"; "spain"; "usa"; "united states";
    "uk"; "united kingdom"; "canada"; "australia" ].

Fixpoint find_country_in (cs : list string) (user_lower : string) : option string :=
  match cs with
  | [] => None
  | country :: cs' =>
      if py_contains country user_lower then Some country
      else find_country_in cs' user_lower
  end.

Definition extract_country (user_input : string) : option string :=
  find_country_in countries (py_lower user_input).

(** ** Prompts

    The prompts are triple-quoted f-strings: each source line keeps the
    indentation it has in [main.py] (12 spaces in the interactive analysis
    prompt and the demo, 16 in the interactive final prompt), and the
    closing quotes follow a newline and that indentation. *)

Definition nl : string := String (ascii_of_nat 10) EmptyString.

Fixpoint spaces (n : nat) : string :=
  match n with
  | O => EmptyString
  | S n' => String " " (spaces n')
  end.

Definition enhanced_prompt (user_input : string) : string :=
  let ind := spaces 12 in
  nl ++ ind ++ "User question: " ++ user_input ++ nl
  ++ ind ++ nl
  ++ ind ++ "You are a geography expert. If the user is asking about a capital city:" ++ nl
  ++ ind ++ "1. Identify the country mentioned" ++ nl
  ++ ind ++ "2. I will call get_capital_city(country) for you" ++ nl
  ++ ind ++ "3. Provide a helpful response" ++ nl
  ++ ind ++ nl
  ++ ind ++ "First, tell me what country you think the user is asking about, then I'll get the capital for you." ++ nl
  ++ ind.

Definition final_prompt (indent : nat) (question country capital : string) : string :=
  let ind := spaces indent in
  nl ++ ind ++ "The user asked: " ++ question ++ nl
  ++ ind ++ "The country is: " ++ country ++ nl
  ++ ind ++ "The capital is: " ++ capital ++ nl
  ++ ind ++ nl
  ++ ind ++ "Please provide a natural, conversational response about this capital city." ++ nl
  ++ ind.

Fixpoint repeat_string (s : string) (n : nat) : string :=
  match n with
  | O => EmptyString
  | S n' => s ++ repeat_string s n'
  end.

(** [str(found_country)] in an f-string: [None] prints as [None]. *)
Definition py_str_opt (o : option string) : string :=
  match o with
  | Some s => s
  | None => "None"
  end.

(** ** The pipeline, against a hosted model

    [generate] answers [model.generate_content(prompt)] followed by
    [.text]: a text, or a raised exception (network failure, missing key,
    blocked response, ...). *)

Inductive input_result :=
| Line (s : string)
| InputRaises (e : py_exc).

Inductive loop_ctl := Break | Continue.

Section Pipeline.

Variable generate : string -> py_exc + string.

Definition generate_content (prompt : string) : M string :=
  ([EModel prompt], generate prompt).

(** [input(prompt)]: writes the prompt, then returns the line read or
    raises ([EOFError] at end of input is a [PyException], Ctrl-C a
    [KeyboardInterrupt]). *)
Definition input (prompt : string) (r : input_result) : M string :=
  ([EPrompt prompt], match r with Line s => inr s | InputRaises e => inl e end).

(** The body of the [try] block of one iteration of [interactive_chat]. *)
Definition chat_turn (r : input_result) : M loop_ctl :=
  raw <- input "You: " r ;;
  let user_input := py_strip raw in
  if py_in_list (py_lower user_input) ["quit"; "exit"; "bye"] then
    print "Goodbye!" ;; ret Break
  else if String.eqb user_input "" then ret Continue
  else
    print "" ;;
    print (repeat_string "=" 40) ;;
    print "PROCESSING YOUR MESSAGE..." ;;
    print (repeat_string "=" 40) ;;
    print ("[USER] INPUT: '" ++ user_input ++ "'") ;;
    print "[MEMORY] Storing user message..." ;;
    print "[LLM] Sending to Gemini for processing..." ;;
    print "[LLM] Analyzing user question..." ;;
    _response <- generate_content (enhanced_prompt user_input) ;;
    let found_country := extract_country user_input in
    match found_country with
    | Some country =>
        capital <- get_capital_city country ;;
        print "[LLM] Generating final response..." ;;
        final_response <- generate_content (final_prompt 16 user_input country capital) ;;
        print ("[AGENT] FINAL: " ++ final_response)
    | None =>
        print "[AGENT] I'm not sure which country you're asking about. Could you please clarify?"
    end ;;
    print "[MEMORY] Conversation stored" ;;
    print (repeat_string "=" 40) ;;
    print "" ;;
    ret Continue.

(** The two [except] clauses around the body: [KeyboardInterrupt] ends the
    loop, any [Exception] is printed and the loop goes on, and any other
    [BaseException] propagates out of [interactive_chat]. *)
Definition handle (m : M loop_ctl) : M loop_ctl :=
  match m with
  | (t, inr c) => (t, inr c)
  | (t, inl KeyboardInterrupt) =>
      (app t [EPrint (nl ++ "Goodbye!")], inr Break)
  | (t, inl (PyException msg)) =>
      (app t [EPrint ("[ERROR] " ++ msg); EPrint "Please try again."; EPrint ""],
       inr Continue)
  | (t, inl e) => (t, inl e)
  end.

(** The [while True] loop, fed with the results of the successive [input]
    calls.  When the list runs out the loop is still waiting for input
    ([false]); [true] means it left through [break]. *)
Fixpoint chat_loop (inputs : list input_result) : M bool :=
  match inputs with
  | [] => ret false
  | r :: rest =>
      c <- handle (chat_turn r) ;;
      match c with
      | Break => ret true
      | Continue => chat_loop rest
      end
  end.

Definition chat_banner : M unit :=
  print (repeat_string "=" 60) ;;
  print "INTERACTIVE AGENT CHAT" ;;
  print (repeat_string "=" 60) ;;
  print "Ask questions about capital cities!" ;;
  print "Type 'quit' or 'exit' to stop" ;;
  print (repeat_string "=" 60).

(** [interactive_chat]: the agent and the [LoggingRunner] are built (the
    runner starts with an empty [conversation_history]) and never used
    afterwards. *)
Definition interactive_chat (inputs : list input_result) : M bool :=
  chat_banner ;;
  print "[INIT] Creating LLM Agent..." ;;
  print "[INIT] Creating Memory Runner..." ;;
  print "[READY] Agent initialized successfully!" ;;
  print "" ;;
  chat_loop inputs.

(** One iteration of the loop of [demo_sequence] ([time.sleep(1)] prints
    nothing). *)
Definition demo_question (question : string) : M unit :=
  print (nl ++ repeat_string "=" 50) ;;
  print ("DEMO QUESTION: " ++ question) ;;
  print (repeat_string "=" 50) ;;
  print ("[USER] INPUT: '" ++ question ++ "'") ;;
  print "[MEMORY] Storing user message..." ;;
  print "[LLM] Sending to Gemini for processing..." ;;
  let found_country := extract_country question in
  print "[LLM] Analyzing user question..." ;;
  print ("[LLM] Country detected: " ++ py_str_opt found_country) ;;
  match found_country with
  | Some country =>
      capital <- get_capital_city country ;;
      print "[LLM] Generating final response..." ;;
      final_response <- generate_content (final_prompt 12 question country capital) ;;
      print ("[AGENT] FINAL: " ++ final_response)
  | None =>
      print "[AGENT] I'm not sure which country you're asking about. Could you please clarify?"
  end ;;
  print "[MEMORY] Conversation stored" ;;
  print (repeat_string "=" 50).

Definition test_questions : list string :=
  [ "What is the capital of Japan?";
    "Tell me about France's capital";
    "What about Germany?";
    "Capital of Australia?" ].

Fixpoint demo_loop (qs : list string) : M unit :=
  match qs with
  | [] => ret tt
  | q :: qs' => demo_question q ;; demo_loop qs'
  end.

Definition demo_sequence : M unit :=
  print (repeat_string "=" 60) ;;
  print "AGENT OPERATION SEQUENCE DEMO" ;;
  print (repeat_string "=" 60) ;;
  demo_loop test_questions.

(** [main]: [tty] is [sys.stdin.isatty()], [choice] the result of the
    [input] asking for the mode, [inputs] those of the chat loop. *)
Definition main (tty : bool) (choice : input_result)
    (inputs : list input_result) : M unit :=
  if tty then
    print "Choose mode:" ;;
    print "1. Demo sequence (shows operations)" ;;
    print "2. Interactive chat" ;;
    c <- input "Enter choice (1 or 2): " choice ;;
    if String.eqb (py_strip c) "2" then interactive_chat inputs ;; ret tt
    else demo_sequence
  else
    print "Running in demo mode (non-interactive environment)" ;;
    demo_sequence.

End Pipeline.

(** ** Module start-up

    [api_key] is the value of [GEMINI_API_KEY] after [load_dotenv()]; an
    empty string is falsy in Python.  The hosted model answers according to
    the key it was configured with ([None] when [genai.configure] was not
    called), which is all [generate_for] receives. *)
Definition startup (api_key : option string) : M (option string) :=
  match api_key with
  | Some k =>
      if String.eqb k "" then
        print "Warning: GEMINI_API_KEY environment variable not set" ;; ret None
      else
        print "Gemini API key loaded successfully" ;; ret (Some k)
  | None =>
      print "Warning: GEMINI_API_KEY environment variable not set" ;; ret None
  end.

Definition run_program (generate_for : option string -> string -> py_exc + string)
    (api_key : option string) (tty : bool) (choice : input_result)
    (inputs : list input_result) : M unit :=
  configured <- startup api_key ;;
  main (generate_for configured) tty choice inputs.

(** ** [LoggingRunner]

    An event of the parent runner's [run_async] stream, with its [message]
    text when [hasattr(event, 'message') and event.message] holds. *)
Record adk_event := { message : option string }.

Record LoggingRunner := { conversation_history : list (string * string) }.

(** The overridden [run_async], run over the events the parent yields: the
    printed lines, the events passed on, and the runner afterwards. *)
Fixpoint run_async_events (r : LoggingRunner) (evs : list adk_event)
    : list event * list adk_event * LoggingRunner :=
  match evs with
  | [] => ([], [], r)
  | ev :: evs' =>
      match message ev with
      | Some text =>
          let r1 := {| conversation_history :=
                         app (conversation_history r) [("assistant", text)] |} in
          let '(t, out, r2) := run_async_events r1 evs' in
          (EPrint "[LLM] RESPONSE: Agent is thinking..." :: EPrint ("[AGENT] " ++ text) :: t,
           ev :: out, r2)
      | None =>
          let '(t, out, r2) := run_async_events r evs' in (t, ev :: out, r2)
      end
  end.

(** What [super().run_async()] does when iterated: the events it yields,
    then the exception it ends with, if any. *)
Record parent_stream := {
  yielded : list adk_event;
  raised : option py_exc
}.

(** The call as written in [main.py]: [super().run_async()] passes none of
    the keyword-only arguments ([user_id], [session_id], [new_message]) the
    parent [run_async] requires, so the call raises [TypeError] before any
    event is yielded; [msg] is the text of that [TypeError]. *)
Definition parent_as_called (msg : string) : parent_stream :=
  {| yielded := []; raised := Some (PyException msg) |}.

(** The overridden [run_async]: the two header lines, then the loop over the
    parent stream; the result is the printed lines, the events passed on
    and how the generator ends (the parent's exception propagates), with
    the runner afterwards. *)
Definition run_async (r : LoggingRunner) (ps : parent_stream)
    : list event * list adk_event * (py_exc + unit) * LoggingRunner :=
  let '(t, out, r') := run_async_events r (yielded ps) in
  (EPrint "[MEMORY] Starting agent execution"
   :: EPrint "[MEMORY] Loading conversation history..." :: t,
   out,
   match raised ps with Some e => inl e | None => inr tt end,
   r').

(** ** Views on traces used in the statements *)

Definition is_model (e : event) : bool :=
  match e with EModel _ => true | _ => false end.

(** The prompts sent to the hosted model, in order. *)
Definition model_calls (t : list event) : list string :=
  flat_map (fun e => match e with EModel p => [p] | _ => [] end) t.

(** The calls of a trace: tool invocations and model requests. *)
Definition calls (t : list event) : list event :=
  filter (fun e => match e with EModel _ | ETool _ => true | _ => false end) t.

(** The events of a trace before its first model request. *)
Fixpoint before_model (t : list event) : list event :=
  match t with
  | [] => []
  | EModel _ :: _ => []
  | e :: t' => e :: before_model t'
  end.

(** Two runs agree up to the first model request: either the first makes
    no request and both runs are the same, or both make one and their
    events before it coincide. *)
Definition pre_eq {A} (m1 m2 : M A) : Prop :=
  (existsb is_model (trace m1) = false /\ m1 = m2)
  \/ (existsb is_model (trace m1) = true /\ existsb is_model (trace m2) = true
      /\ before_model (trace m1) = before_model (trace m2)).

Definition is_quit (s : string) : bool :=
  py_in_list (py_lower (py_strip s)) ["quit"; "exit"; "bye"].

(** The calls the shared part of both paths makes on a question: the tool
    call and the final-response request, whose prompt is indented by
    [indent] spaces. *)
Definition pipeline_calls (indent : nat) (question : string) : list event :=
  match extract_country question with
  | Some country =>
      [ETool country;
       EModel (final_prompt indent question country
                 (py_dict_get capitals (py_lower country) "Unknown"))]
  | None => []
  end.

(** The entries [run_async] appends for a stream of events. *)
Definition assistant_entries (evs : list adk_event) : list (string * string) :=
  flat_map (fun ev => match message ev with
                      | Some text => [("assistant", text)]
                      | None => [] end) evs.

(** The number of [input] prompts in a trace. *)
Definition count_prompts (t : list event) : nat :=
  length (filter (fun e => match e with EPrompt _ => true | _ => false end) t).


(** ** Facts about the string primitives *)

Definition is_substring (k s : string) : Prop :=
  exists a b, s = a ++ k ++ b.

Lemma py_lower_char_idem (c : ascii) :
  py_lower_char (py_lower_char c) = py_lower_char c.
Proof.
  destruct c as [[] [] [] [] [] [] [] []]; reflexivity.
Qed.

Lemma py_lower_idem (s : string) : py_lower (py_lower s) = py_lower s.
Proof.
  induction s as [|c s IH]; simpl; [reflexivity|].
  now rewrite py_lower_char_idem, IH.
Qed.

Lemma prefix_spec (k s : string) :
  prefix k s = true <-> exists b, s = k ++ b.
Proof.
  revert s; induction k as [|c k IH]; intros s.
  - destruct s; simpl; split; eauto.
  - destruct s as [|c' s]; simpl.
    + split; [discriminate|intros [b Hb]; discriminate].
    + destruct (ascii_dec c c') as [<-|Hne].
      * rewrite IH. split; intros [b Hb]; exists b; congruence.
      * split; [discriminate|intros [b Hb]; congruence].
Qed.

Lemma py_contains_spec (k s : string) :
  py_contains k s = true <-> is_substring k s.
Proof.
  unfold is_substring; induction s as [|c s IH]; cbn [py_contains].
  - rewrite orb_false_r, prefix_spec. split.
    + intros [b Hb]. exists EmptyString, b. exact Hb.
    + intros [a [b Hab]]. exists b. destruct a; [exact Hab|discriminate].
  - rewrite orb_true_iff, prefix_spec, IH. split.
    + intros [[b Hb]|[a [b Hab]]].
      * exists EmptyString, b. exact Hb.
      * exists (String c a), b. simpl. congruence.
    + intros [a [b Hab]]. destruct a as [|c' a]; simpl in Hab.
      * left. exists b. exact Hab.
      * right. exists a, b. congruence.
Qed.

Lemma py_contains_false (k s : string) :
  py_contains k s = false <-> ~ is_substring k s.
Proof.
  rewrite <- py_contains_spec. destruct (py_contains k s); intuition congruence.
Qed.

(** ** Facts about the country scan *)

Lemma find_country_in_some (cs : list string) (u c : string) :
  find_country_in cs u = Some c <->
  exists pre post, cs = (pre ++ c :: post)%list
    /\ py_contains c u = true
    /\ forall d, In d pre -> py_contains d u = false.
Proof.
  induction cs as [|x cs IH]; simpl.
  - split; [discriminate|].
    intros [pre [post [H _]]]. destruct pre; discriminate.
  - case_eq (py_contains x u); intros Hx.
    + split.
      * intros [= <-]. exists [], cs. split; [reflexivity|split; [exact Hx|intros d []]].
      * intros [pre [post [Hcs [Hc Hpre]]]].
        destruct pre as [|y pre]; simpl in Hcs; injection Hcs as -> ->.
        -- reflexivity.
        -- rewrite Hpre in Hx by (left; reflexivity). discriminate.
    + rewrite IH. split.
      * intros [pre [post [-> [Hc Hpre]]]].
        exists (x :: pre), post. simpl. split; [reflexivity|split; [exact Hc|]].
        intros d [<-|Hd]; auto.
      * intros [pre [post [Hcs [Hc Hpre]]]].
        destruct pre as [|y pre]; simpl in Hcs; injection Hcs as -> Hcs.
        -- congruence.
        -- exists pre, post. split; [exact Hcs|split; [exact Hc|]].
           intros d Hd. apply Hpre. right. exact Hd.
Qed.

Lemma find_country_in_none (cs : list string) (u : string) :
  find_country_in cs u = None <-> forall d, In d cs -> py_contains d u = false.
Proof.
  induction cs as [|x cs IH]; simpl.
  - split; [contradiction|reflexivity].
  - case_eq (py_contains x u); intros Hx.
    + split; [discriminate|]. intros H. rewrite H in Hx by auto. discriminate.
    + rewrite IH. split.
      * intros H d [<-|Hd]; auto.
      * intros H d Hd. auto.
Qed.

Lemma find_country_in_In (cs : list string) (u c : string) :
  find_country_in cs u = Some c -> In c cs.
Proof.
  intros H. apply find_country_in_some in H.
  destruct H as [pre [post [-> _]]].
  apply in_or_app. right. left. reflexivity.
Qed.

Ltac split_string_eqb :=
  repeat match goal with
  | |- context [String.eqb ?a ?b] =>
      destruct (String.eqb_spec a b); try subst; cbn [fst snd]
  end.

(** ** The capital lookup table and the tool *)

(** C1: [get_capital_city c] returns the capital listed for [c.lower()]
    when it is one of the eleven known country keys and "Unknown" for any
    other string; the answer depends on [c] only through [c.lower()]. *)
Theorem get_capital_city_spec (c : string) :
  outcome (get_capital_city c) =
    inr (match find (fun kv => String.eqb (fst kv) (py_lower c))
                 [ ("france", "Paris"); ("japan", "Tokyo");
                   ("usa", "Washington D.C."); ("united states", "Washington D.C.");
                   ("germany", "Berlin"); ("italy", "Rome"); ("spain", "Madrid");
                   ("uk", "London"); ("united kingdom", "London");
                   ("canada", "Ottawa"); ("australia", "Canberra") ] with
         | Some (_, capital) => capital
         | None => "Unknown"
         end)
  /\ outcome (get_capital_city c) = outcome (get_capital_city (py_lower c)).
Proof.
  unfold get_capital_city, outcome; cbn [bind print ret app snd].
  rewrite py_lower_idem. split; [|reflexivity].
  unfold py_dict_get, capitals.
  generalize (py_lower c) as k; intros k.
  cbn [rev app find fst].
  split_string_eqb; first [reflexivity | congruence].
Qed.

(** C7: the keys of the lookup table are pairwise distinct and lower case,
    and every call of the tool reads that same literal table (it is built
    afresh inside [get_capital_city] and nothing writes to it). *)
Theorem capitals_keys_unique_lowercase :
  NoDup (map fst capitals)
  /\ Forall (fun k => py_lower k = k) (map fst capitals)
  /\ forall c, outcome (get_capital_city c)
               = inr (py_dict_get capitals (py_lower c) "Unknown").
Proof.
  split; [|split].
  - simpl. repeat constructor; simpl; intuition discriminate.
  - repeat constructor.
  - intros c. reflexivity.
Qed.

(** ** Country extraction *)

(** C2: the extraction returns the first entry of [countries], in list
    order, occurring as a substring of the lowercased input, and [None]
    when no entry occurs in it. *)
Theorem extract_country_first_match (user_input c : string) :
  (extract_country user_input = Some c <->
     exists pre post, countries = (pre ++ c :: post)%list
       /\ is_substring c (py_lower user_input)
       /\ forall d, In d pre -> ~ is_substring d (py_lower user_input))
  /\ (extract_country user_input = None <->
     forall d, In d countries -> ~ is_substring d (py_lower user_input)).
Proof.
  unfold extract_country. split.
  - rewrite find_country_in_some. split.
    + intros [pre [post [H1 [H2 H3]]]]. exists pre, post.
      split; [exact H1|split; [now apply py_contains_spec|]].
      intros d Hd. apply py_contains_false. auto.
    + intros [pre [post [H1 [H2 H3]]]]. exists pre, post.
      split; [exact H1|split; [now apply py_contains_spec|]].
      intros d Hd. apply py_contains_false. auto.
  - rewrite find_country_in_none. split.
    + intros H d Hd. apply py_contains_false. auto.
    + intros H d Hd. apply py_contains_false. auto.
Qed.

(** C9: every entry of [countries] is a key of the table, so a country
    found by the extraction always has a capital other than "Unknown". *)
Theorem extracted_country_has_capital (user_input c : string) :
  extract_country user_input = Some c ->
  outcome (get_capital_city c) <> inr "Unknown".
Proof.
  intros H. apply find_country_in_In in H.
  simpl in H.
  repeat (destruct H as [<-|H]; [vm_compute; discriminate|]).
  contradiction.
Qed.

Lemma extracted_country_has_capital_witness :
  extract_country "Capital of Australia?" = Some "australia"
  /\ outcome (get_capital_city "australia") <> inr "Unknown".
Proof.
  split; [reflexivity|].
  apply (extracted_country_has_capital "Capital of Australia?" "australia").
  reflexivity.
Defined.

(** ** Runs up to the first model request *)

Lemma before_model_app_nomodel (t x : list event) :
  existsb is_model t = false -> before_model (app t x) = app t (before_model x).
Proof.
  induction t as [|e t IH]; simpl; [reflexivity|].
  destruct e; simpl; try discriminate; intros H; f_equal; auto.
Qed.

Lemma before_model_app_model (t x : list event) :
  existsb is_model t = true -> before_model (app t x) = before_model t.
Proof.
  induction t as [|e t IH]; simpl; [discriminate|].
  destruct e; simpl; intros H; try reflexivity; f_equal; auto.
Qed.

Lemma bind_trace {A B} (t : list event) (r : py_exc + A) (k : A -> M B) :
  exists u, trace (bind (t, r) k) = app t u.
Proof.
  destruct r as [e|a]; simpl.
  - exists []. unfold trace. simpl. now rewrite app_nil_r.
  - destruct (k a) as [u s]. exists u. reflexivity.
Qed.

Lemma pre_eq_refl {A} (m : M A) : pre_eq m m.
Proof.
  unfold pre_eq. destruct (existsb is_model (trace m)); auto.
Qed.

Lemma bind_pre_eq {A B} (m1 m2 : M A) (k1 k2 : A -> M B) :
  pre_eq m1 m2 -> (forall a, pre_eq (k1 a) (k2 a)) ->
  pre_eq (bind m1 k1) (bind m2 k2).
Proof.
  intros Hm Hk. destruct m1 as [t1 r1], m2 as [t2 r2].
  destruct Hm as [[H1 Heq]|[H1 [H2 Hb]]].
  - injection Heq as <- <-. destruct r1 as [e|a]; [apply pre_eq_refl|].
    specialize (Hk a). unfold bind.
    destruct (k1 a) as [u1 s1], (k2 a) as [u2 s2].
    unfold pre_eq, trace in *; simpl in *.
    rewrite !existsb_app, H1; simpl.
    destruct Hk as [[Hu Heq]|[Hu1 [Hu2 Hb]]].
    + left. split; [exact Hu|congruence].
    + right. rewrite Hu1, Hu2. split; [reflexivity|split; [reflexivity|]].
      rewrite !before_model_app_nomodel by exact H1. congruence.
  - right. cbn [trace fst] in H1, H2, Hb.
    destruct (bind_trace t1 r1 k1) as [u1 Hu1].
    destruct (bind_trace t2 r2 k2) as [u2 Hu2].
    rewrite Hu1, Hu2, !existsb_app, H1, H2.
    split; [reflexivity|split; [reflexivity|]].
    rewrite !before_model_app_model by assumption. exact Hb.
Qed.

Lemma generate_content_pre_eq (g1 g2 : string -> py_exc + string) (p : string) :
  pre_eq (generate_content g1 p) (generate_content g2 p).
Proof.
  right. split; [reflexivity|split; reflexivity].
Qed.

Lemma handle_pre_eq (m1 m2 : M loop_ctl) :
  pre_eq m1 m2 -> pre_eq (handle m1) (handle m2).
Proof.
  intros Hm. destruct m1 as [t1 r1], m2 as [t2 r2].
  destruct Hm as [[H1 Heq]|[H1 [H2 Hb]]].
  - injection Heq as <- <-. apply pre_eq_refl.
  - right. cbn [trace fst] in H1, H2, Hb. unfold trace.
    assert (Hh : forall t r, existsb is_model t = true ->
              existsb is_model (fst (handle (t, r))) = true
              /\ before_model (fst (handle (t, r))) = before_model t).
    { intros t r Ht.
      destruct r as [[|msg|name msg]|c]; simpl;
        rewrite ?existsb_app, ?Ht, ?before_model_app_model by exact Ht;
        auto. }
    destruct (Hh t1 r1 H1) as [Ha1 Hb1], (Hh t2 r2 H2) as [Ha2 Hb2].
    split; [exact Ha1|split; [exact Ha2|congruence]].
Qed.

Ltac solve_pre_eq :=
  repeat match goal with
  | |- pre_eq ?m ?m => apply pre_eq_refl
  | |- pre_eq (bind _ _) (bind _ _) => apply bind_pre_eq; [|intro]
  | |- pre_eq (generate_content _ _) (generate_content _ _) =>
      apply generate_content_pre_eq
  | |- pre_eq (if ?b then _ else _) (if ?b then _ else _) => destruct b
  | |- pre_eq (match ?x with _ => _ end) _ => destruct x
  end.

Lemma chat_turn_pre_eq (g1 g2 : string -> py_exc + string) (r : input_result) :
  pre_eq (chat_turn g1 r) (chat_turn g2 r).
Proof.
  unfold chat_turn. solve_pre_eq.
Qed.

Lemma chat_loop_pre_eq (g1 g2 : string -> py_exc + string) (inputs : list input_result) :
  pre_eq (chat_loop g1 inputs) (chat_loop g2 inputs).
Proof.
  induction inputs as [|r rest IH]; simpl; [apply pre_eq_refl|].
  apply bind_pre_eq; [apply handle_pre_eq, chat_turn_pre_eq|].
  intros [|]; [apply pre_eq_refl|exact IH].
Qed.

Lemma demo_question_pre_eq (g1 g2 : string -> py_exc + string) (q : string) :
  pre_eq (demo_question g1 q) (demo_question g2 q).
Proof.
  unfold demo_question. solve_pre_eq.
Qed.

Lemma demo_sequence_pre_eq (g1 g2 : string -> py_exc + string) :
  pre_eq (demo_sequence g1) (demo_sequence g2).
Proof.
  unfold demo_sequence. solve_pre_eq.
  generalize test_questions as qs. intros qs.
  induction qs as [|q qs IH]; simpl; [apply pre_eq_refl|].
  apply bind_pre_eq; [apply demo_question_pre_eq|intros _; exact IH].
Qed.

Lemma main_pre_eq (g1 g2 : string -> py_exc + string) (tty : bool)
    (choice : input_result) (inputs : list input_result) :
  pre_eq (main g1 tty choice inputs) (main g2 tty choice inputs).
Proof.
  unfold main, interactive_chat.
  solve_pre_eq; first [apply chat_loop_pre_eq | apply demo_sequence_pre_eq].
Qed.

(** ** Start-up without an API key *)

(** C6: when [GEMINI_API_KEY] is not set, start-up prints the warning and
    the program goes on with [main]; up to its first request to the hosted
    model, [main] runs exactly as it would with a configured key (and a run
    that makes no request is the same run altogether). *)
Theorem missing_api_key_warns_and_continues
    (generate_for : option string -> string -> py_exc + string)
    (tty : bool) (choice : input_result) (inputs : list input_result) :
  run_program generate_for None tty choice inputs
    = (EPrint "Warning: GEMINI_API_KEY environment variable not set"
         :: trace (main (generate_for None) tty choice inputs),
       outcome (main (generate_for None) tty choice inputs))
  /\ forall key, pre_eq (main (generate_for None) tty choice inputs)
                        (main (generate_for (Some key)) tty choice inputs).
Proof.
  split.
  - unfold run_program, startup, trace, outcome. simpl.
    destruct (main (generate_for None) tty choice inputs); reflexivity.
  - intros key. apply main_pre_eq.
Qed.

(** ** The [LoggingRunner] history *)

Lemma run_async_events_history (r1 r2 : LoggingRunner) (evs : list adk_event) :
  fst (run_async_events r1 evs) = fst (run_async_events r2 evs)
  /\ conversation_history (snd (run_async_events r1 evs))
     = app (conversation_history r1) (assistant_entries evs).
Proof.
  revert r1 r2; induction evs as [|ev evs IH]; intros r1 r2; simpl.
  - now rewrite app_nil_r.
  - destruct (message ev) as [text|].
    + set (s1 := {| conversation_history := app (conversation_history r1) [("assistant", text)] |}).
      set (s2 := {| conversation_history := app (conversation_history r2) [("assistant", text)] |}).
      destruct (IH s1 s2) as [Hf Hh].
      destruct (run_async_events s1 evs) as [[t1 o1] q1] eqn:E1.
      destruct (run_async_events s2 evs) as [[t2 o2] q2] eqn:E2.
      simpl in *. injection Hf as -> ->. split; [reflexivity|].
      rewrite Hh. subst s1. simpl. now rewrite <- app_assoc.
    + destruct (IH r1 r2) as [Hf Hh].
      destruct (run_async_events r1 evs) as [[t1 o1] q1] eqn:E1.
      destruct (run_async_events r2 evs) as [[t2 o2] q2] eqn:E2.
      simpl in *. injection Hf as -> ->. split; [reflexivity|exact Hh].
Qed.

(** C8: [conversation_history] is only appended to and never read: for
    any parent stream, the lines [run_async] prints, the events it passes
    on and the way it ends are the same whatever the history holds, and
    afterwards the history is the old one followed by one assistant entry
    per message.  As the source calls the parent, [run_async] prints its
    two header lines, raises the [TypeError] and leaves the history as it
    was.  ([interactive_chat] builds the runner with an empty history and
    never uses it again.) *)
Theorem conversation_history_write_only (r1 r2 : LoggingRunner) (ps : parent_stream) :
  fst (run_async r1 ps) = fst (run_async r2 ps)
  /\ conversation_history (snd (run_async r1 ps))
     = app (conversation_history r1) (assistant_entries (yielded ps))
  /\ forall msg, run_async r1 (parent_as_called msg)
       = ([EPrint "[MEMORY] Starting agent execution";
           EPrint "[MEMORY] Loading conversation history..."],
          [], inl (PyException msg), r1).
Proof.
  split; [|split].
  - unfold run_async.
    destruct (run_async_events_history r1 r2 (yielded ps)) as [Hf _].
    destruct (run_async_events r1 (yielded ps)) as [[t1 o1] q1].
    destruct (run_async_events r2 (yielded ps)) as [[t2 o2] q2].
    simpl in *. injection Hf as -> ->. reflexivity.
  - unfold run_async.
    destruct (run_async_events_history r1 r1 (yielded ps)) as [_ Hh].
    destruct (run_async_events r1 (yielded ps)) as [[t1 o1] q1].
    exact Hh.
  - intros msg. reflexivity.
Qed.

(** ** Model requests per utterance *)

Ltac unfold_steps :=
  unfold chat_turn, demo_question, input, generate_content, get_capital_city,
    print, ret, bind;
  cbv beta iota zeta.

Ltac turn_cases g :=
  repeat match goal with
  | |- context [g ?p] => destruct (g p); cbv beta iota
  | |- context [match extract_country ?q with _ => _ end] =>
      destruct (extract_country q); cbv beta iota
  end.

(** C3 (as it holds): in the interactive loop a line that is processed (not
    a quit word, not blank) gets the analysis request, and a second request
    for the final response exactly when that first request returned and a
    country was extracted; the demo makes no analysis request, only the
    final one when a country was extracted. *)
Theorem model_calls_per_utterance (g : string -> py_exc + string) (s q : string)
    (Hq : is_quit s = false) (Hne : py_strip s <> "") :
  length (model_calls (trace (chat_turn g (Line s))))
    = (match g (enhanced_prompt (py_strip s)), extract_country (py_strip s) with
       | inr _, Some _ => 2
       | _, _ => 1
       end)%nat
  /\ length (model_calls (trace (demo_question g q)))
    = (match extract_country q with Some _ => 1 | None => 0 end)%nat.
Proof.
  split.
  - unfold_steps. unfold is_quit in Hq. rewrite Hq.
    destruct (String.eqb_spec (py_strip s) "") as [E|_]; [contradiction|].
    turn_cases g; simpl; reflexivity.
  - unfold_steps.
    turn_cases g; simpl; reflexivity.
Qed.

(** C3 fails as stated: "hello" names no country, so the interactive loop
    makes a single request for it, and the demo makes a single request on
    "What about Germany?". *)
Lemma model_calls_per_utterance_counterexample :
  length (model_calls (trace (chat_turn (fun _ => inr "ok") (Line "hello")))) = 1%nat
  /\ length (model_calls (trace (demo_question (fun _ => inr "ok") "What about Germany?")))
     = 1%nat.
Proof. split; vm_compute; reflexivity. Qed.

Lemma model_calls_per_utterance_witness :
  is_quit "Capital of Japan?" = false /\ py_strip "Capital of Japan?" <> ""
  /\ length (model_calls (trace (chat_turn (fun _ => inr "ok") (Line "Capital of Japan?"))))
       = 2%nat
  /\ length (model_calls (trace (demo_question (fun _ => inr "ok") "Capital of Japan?")))
       = 1%nat.
Proof.
  assert (Hq : is_quit "Capital of Japan?" = false) by reflexivity.
  assert (Hne : py_strip "Capital of Japan?" <> "") by (vm_compute; discriminate).
  split; [exact Hq|split; [exact Hne|]].
  exact (model_calls_per_utterance (fun _ => inr "ok")
           "Capital of Japan?" "Capital of Japan?" Hq Hne).
Defined.

(** ** The demo and the interactive path *)

(** C4 (as it holds): on a question that is already stripped and is not a
    quit word, both paths run the same extraction and make the same tool
    call and final-response request, with the final prompt indented by 16
    spaces in the interactive path and 12 in the demo; the interactive path
    first sends the analysis request, and goes on only when it returns. *)
Theorem demo_and_chat_share_pipeline (g : string -> py_exc + string) (q : string)
    (Hs : py_strip q = q) (Hq : is_quit q = false) (Hne : q <> "") :
  calls (trace (chat_turn g (Line q)))
    = EModel (enhanced_prompt q)
      :: match g (enhanced_prompt q) with
         | inr _ => pipeline_calls 16 q
         | inl _ => []
         end
  /\ calls (trace (demo_question g q)) = pipeline_calls 12 q.
Proof.
  unfold pipeline_calls. split.
  - unfold_steps. unfold is_quit in Hq. rewrite Hs in Hq |- *. rewrite Hq.
    destruct (String.eqb_spec q "") as [E|_]; [contradiction|].
    turn_cases g; simpl; rewrite ?filter_app; reflexivity.
  - unfold_steps. turn_cases g; simpl; rewrite ?filter_app; reflexivity.
Qed.

Lemma demo_and_chat_share_pipeline_witness :
  py_strip "What about Germany?" = "What about Germany?"
  /\ is_quit "What about Germany?" = false /\ "What about Germany?" <> ""
  /\ calls (trace (demo_question (fun _ => inr "ok") "What about Germany?"))
     = pipeline_calls 12 "What about Germany?".
Proof.
  assert (Hs : py_strip "What about Germany?" = "What about Germany?") by reflexivity.
  assert (Hq : is_quit "What about Germany?" = false) by reflexivity.
  assert (Hne : "What about Germany?" <> "") by discriminate.
  split; [exact Hs|split; [exact Hq|split; [exact Hne|]]].
  exact (proj2 (demo_and_chat_share_pipeline (fun _ => inr "ok")
                  "What about Germany?" Hs Hq Hne)).
Defined.

(** C4 fails as stated: on "What about Germany?" the interactive path sends
    the analysis request, which the demo never sends, so the calls of the
    two paths differ. *)
Lemma demo_and_chat_share_pipeline_counterexample :
  calls (trace (chat_turn (fun _ => inr "ok") (Line "What about Germany?")))
  <> calls (trace (demo_question (fun _ => inr "ok") "What about Germany?")).
Proof. vm_compute. discriminate. Qed.

(** ** Exceptions in the interactive loop *)

(** C5 (as it holds): when the body of an iteration raises an [Exception],
    its text is printed after "[ERROR] ", then "Please try again." and an
    empty line, and the loop goes on with the next input; a
    [KeyboardInterrupt] prints "Goodbye!" and ends the loop; any other
    [BaseException] leaves [interactive_chat] uncaught. *)
Theorem chat_loop_exception_handling (g : string -> py_exc + string)
    (r : input_result) (rest : list input_result) (t : list event) (e : py_exc)
    (H : chat_turn g r = (t, inl e)) :
  chat_loop g (r :: rest) =
    match e with
    | PyException msg =>
        (app (app t [EPrint ("[ERROR] " ++ msg); EPrint "Please try again."; EPrint ""])
             (trace (chat_loop g rest)),
         outcome (chat_loop g rest))
    | KeyboardInterrupt => (app t [EPrint (nl ++ "Goodbye!")], inr true)
    | PyBaseException _ _ => (t, inl e)
    end.
Proof.
  simpl. rewrite H. destruct e as [|msg|name msg]; simpl.
  - now rewrite app_nil_r.
  - unfold trace, outcome. destruct (chat_loop g rest); reflexivity.
  - reflexivity.
Qed.

Lemma chat_loop_exception_handling_witness :
  exists t,
    chat_turn (fun _ => inl (PyException "boom")) (Line "hello")
      = (t, inl (PyException "boom"))
    /\ chat_loop (fun _ => inl (PyException "boom")) [Line "hello"]
       = (app (app t [EPrint ("[ERROR] " ++ "boom"); EPrint "Please try again."; EPrint ""])
              (trace (chat_loop (fun _ => inl (PyException "boom")) [])),
          outcome (chat_loop (fun _ => inl (PyException "boom")) [])).
Proof.
  eexists. split; [reflexivity|].
  apply (chat_loop_exception_handling (fun _ => inl (PyException "boom"))
           (Line "hello") [] _ (PyException "boom")).
  reflexivity.
Defined.

(** C5 fails as stated: a Ctrl-C at the prompt raises [KeyboardInterrupt],
    which the catch-all [except Exception] does not catch; the loop prints
    "Goodbye!" and stops, and the next input is never read. *)
Lemma chat_loop_exception_handling_counterexample :
  chat_loop (fun _ => inr "ok") [InputRaises KeyboardInterrupt; Line "Capital of Japan?"]
    = ([EPrompt "You: "; EPrint (nl ++ "Goodbye!")], inr true).
Proof. vm_compute. reflexivity. Qed.

(** ** Blank lines and the quit words *)

(** C10 (as it holds): a line that is blank after stripping only writes the
    prompt, and the loop reads the next line; a line whose stripped,
    lowercased form is "quit", "exit" or "bye" prints "Goodbye!" and ends
    the loop; for any other line, a [KeyboardInterrupt] raised while it is
    processed prints "Goodbye!" and ends the loop, a [BaseException] that
    is not an [Exception] propagates out of the loop, and otherwise the
    loop goes on to the next input. *)
Theorem chat_loop_blank_and_quit (g : string -> py_exc + string)
    (s : string) (rest : list input_result) :
  (py_strip s = "" ->
     chat_loop g (Line s :: rest)
     = (EPrompt "You: " :: trace (chat_loop g rest), outcome (chat_loop g rest)))
  /\ (is_quit s = true ->
     chat_loop g (Line s :: rest) = ([EPrompt "You: "; EPrint "Goodbye!"], inr true))
  /\ (is_quit s = false ->
      match outcome (chat_turn g (Line s)) with
      | inl KeyboardInterrupt =>
          chat_loop g (Line s :: rest)
          = (app (trace (chat_turn g (Line s))) [EPrint (nl ++ "Goodbye!")], inr true)
      | inl (PyBaseException name msg) =>
          chat_loop g (Line s :: rest)
          = (trace (chat_turn g (Line s)), inl (PyBaseException name msg))
      | _ =>
          exists t, chat_loop g (Line s :: rest)
                    = (app t (trace (chat_loop g rest)), outcome (chat_loop g rest))
      end).
Proof.
  split; [|split].
  - intros Hs. simpl. unfold chat_turn, input. cbn [bind].
    rewrite Hs. simpl. unfold trace, outcome.
    destruct (chat_loop g rest); reflexivity.
  - intros Hq. simpl. unfold chat_turn, input. cbn [bind].
    unfold is_quit in Hq. rewrite Hq. reflexivity.
  - intros Hq. simpl.
    assert (Hc : forall t, chat_turn g (Line s) <> (t, inr Break)).
    { intros t. unfold_steps. unfold is_quit in Hq. rewrite Hq.
      destruct (String.eqb (py_strip s) "");
        [discriminate|turn_cases g; discriminate]. }
    destruct (chat_turn g (Line s)) as [t [[|msg|name msg]|[|]]] eqn:E;
      unfold trace, outcome; simpl.
    + now rewrite app_nil_r.
    + exists (app t [EPrint ("[ERROR] " ++ msg); EPrint "Please try again."; EPrint ""]).
      destruct (chat_loop g rest); reflexivity.
    + reflexivity.
    + exfalso. exact (Hc t eq_refl).
    + exists t. destruct (chat_loop g rest); reflexivity.
Qed.

(** C10 fails as stated: "hello" is not a quit word, yet the loop ends on
    it when a Ctrl-C interrupts the request to the hosted model. *)
Lemma chat_loop_blank_and_quit_counterexample :
  is_quit "hello" = false
  /\ outcome (chat_loop (fun _ => inl KeyboardInterrupt) [Line "hello"; Line "Capital of Japan?"])
     = inr true.
Proof. split; vm_compute; reflexivity. Qed.

(** ** Further properties of the program *)

(** Once the chat loop has left through [break], the inputs after it are
    never read; while it is still waiting, the next inputs are processed
    as a run of their own that follows the first. *)
Theorem chat_loop_app (g : string -> py_exc + string)
    (ins1 ins2 : list input_result) :
  (outcome (chat_loop g ins1) = inr true ->
     chat_loop g (ins1 ++ ins2)%list = chat_loop g ins1)
  /\ (outcome (chat_loop g ins1) = inr false ->
     chat_loop g (ins1 ++ ins2)%list
     = (app (trace (chat_loop g ins1)) (trace (chat_loop g ins2)),
        outcome (chat_loop g ins2))).
Proof.
  induction ins1 as [|r rest IH]; simpl.
  - split; [discriminate|].
    intros _. unfold trace, outcome. destruct (chat_loop g ins2); reflexivity.
  - unfold bind.
    destruct (handle (chat_turn g r)) as [t [e|[|]]]; simpl.
    + split; discriminate.
    + split; [reflexivity|discriminate].
    + destruct IH as [IH1 IH2].
      split; intros H.
      * destruct (chat_loop g rest) as [u o] eqn:E; simpl in H |- *.
        rewrite IH1 by exact H. reflexivity.
      * destruct (chat_loop g rest) as [u o] eqn:E; simpl in H |- *.
        rewrite IH2 by exact H. simpl. now rewrite app_assoc.
Qed.


Lemma chat_turn_one_prompt (g : string -> py_exc + string) (r : input_result) :
  count_prompts (trace (chat_turn g r)) = 1%nat.
Proof.
  destruct r as [s|e]; [|reflexivity].
  unfold_steps.
  destruct (py_in_list (py_lower (py_strip s)) ["quit"; "exit"; "bye"]);
    [reflexivity|].
  destruct (String.eqb (py_strip s) ""); [reflexivity|].
  turn_cases g; reflexivity.
Qed.

Lemma count_prompts_app (t u : list event) :
  count_prompts (app t u) = (count_prompts t + count_prompts u)%nat.
Proof.
  unfold count_prompts. now rewrite filter_app, length_app.
Qed.

Lemma handle_count_prompts (m : M loop_ctl) :
  count_prompts (trace (handle m)) = count_prompts (trace m).
Proof.
  destruct m as [t [[|msg|name msg]|c]]; unfold trace; simpl;
    rewrite ?count_prompts_app; unfold count_prompts; simpl; lia.
Qed.

(** The chat loop reads one line per iteration: a run that is still
    waiting has written the "You: " prompt once per input it was given. *)
Theorem chat_loop_one_prompt_per_input (g : string -> py_exc + string)
    (inputs : list input_result)
    (H : outcome (chat_loop g inputs) = inr false) :
  count_prompts (trace (chat_loop g inputs)) = length inputs.
Proof.
  induction inputs as [|r rest IH]; simpl in *; [reflexivity|].
  pose proof (handle_count_prompts (chat_turn g r)) as Hh.
  rewrite chat_turn_one_prompt in Hh.
  unfold bind in *.
  destruct (handle (chat_turn g r)) as [t [e|[|]]]; simpl in *;
    [discriminate|discriminate|].
  destruct (chat_loop g rest) as [u o] eqn:E. simpl in *.
  unfold trace in *; simpl in *.
  rewrite count_prompts_app, Hh, IH by exact H. reflexivity.
Qed.

Lemma chat_loop_one_prompt_per_input_witness :
  outcome (chat_loop (fun _ => inr "ok") [Line ""; Line "Capital of Japan?"]) = inr false
  /\ count_prompts (trace (chat_loop (fun _ => inr "ok") [Line ""; Line "Capital of Japan?"]))
     = 2%nat.
Proof.
  assert (H : outcome (chat_loop (fun _ => inr "ok") [Line ""; Line "Capital of Japan?"])
              = inr false) by (vm_compute; reflexivity).
  split; [exact H|].
  exact (chat_loop_one_prompt_per_input (fun _ => inr "ok")
           [Line ""; Line "Capital of Japan?"] H).
Defined.

(** ** The demo loop over any list of questions *)


Lemma demo_question_answered (g : string -> py_exc + string) (q : string)
    (Hg : forall p, exists text, g p = inr text) :
  calls (trace (demo_question g q)) = pipeline_calls 12 q
  /\ outcome (demo_question g q) = inr tt.
Proof.
  unfold pipeline_calls. unfold_steps.
  destruct (extract_country q); cbv beta iota.
  - match goal with |- context [g ?p] =>
      destruct (Hg p) as [text Ht]; rewrite Ht end.
    simpl. rewrite ?filter_app. split; reflexivity.
  - simpl. split; reflexivity.
Qed.

(** When every request to the hosted model is answered, the demo runs the
    shared pipeline on each question in turn: its tool calls and requests
    are those of the questions one after the other, and it completes. *)
Theorem demo_loop_answered (g : string -> py_exc + string) (qs : list string)
    (Hg : forall p, exists text, g p = inr text) :
  calls (trace (demo_loop g qs)) = flat_map (pipeline_calls 12) qs
  /\ outcome (demo_loop g qs) = inr tt.
Proof.
  induction qs as [|q qs IH]; simpl; [split; reflexivity|].
  destruct (demo_question_answered g q Hg) as [H1 H2].
  unfold bind. destruct (demo_question g q) as [t r] eqn:E.
  unfold outcome in H2. simpl in H2. subst r.
  destruct IH as [IH1 IH2].
  destruct (demo_loop g qs) as [u o] eqn:F.
  unfold trace, outcome in *; simpl in *.
  unfold calls in *. rewrite filter_app, H1, IH1. split; [reflexivity|exact IH2].
Qed.

Lemma demo_loop_answered_witness :
  (forall p : string, exists text, (fun _ : string => inr "ok") p = @inr py_exc string text)
  /\ outcome (demo_loop (fun _ => inr "ok") test_questions) = inr tt.
Proof.
  assert (Hg : forall p : string,
            exists text, (fun _ : string => inr "ok") p = @inr py_exc string text)
    by (intros p; exists "ok"; reflexivity).
  split; [exact Hg|].
  exact (proj2 (demo_loop_answered (fun _ => inr "ok") test_questions Hg)).
Defined.



